(** * SkColorSpaceXformer: retargeting paints, shaders and images to a
      destination colour space

    A shallow embedding of [src/core/SkColorSpaceXformer.cpp].

    The file is organised as the C++ is:
    - the outcome of a call (a returned value, a tripped assertion, a null
      pointer dereferenced);
    - the opaque Skia types and the collaborators the xformer calls;
    - [Make], the [apply] overloads for images, bitmaps, colours, shaders and
      paints;
    - the properties of these functions. *)

From Stdlib Require Import ZArith List Bool Lia.
Import ListNotations.
Local Open Scope Z_scope.

Set Implicit Arguments.

(** ** Outcomes

    A C++ call either returns, or stops the program: [SkASSERT] and
    [SkAssertResult] halt on a false condition, and [p->m()] on a null
    [sk_sp] has no defined result. *)

Inductive outcome (A : Type) : Type :=
| Ret (a : A)
| AssertFailed
| NullDeref.

Arguments Ret {A} a.
Arguments AssertFailed {A}.
Arguments NullDeref {A}.

Definition bind {A B : Type} (c : outcome A) (k : A -> outcome B) : outcome B :=
  match c with
  | Ret a => k a
  | AssertFailed => AssertFailed
  | NullDeref => NullDeref
  end.

Notation "'do' x <- c ; k" := (bind c (fun x => k))
  (at level 10, x name, c at level 100, k at level 200).

(** [sk_sp<T>], [std::unique_ptr<T>] and [T*]: a reference that may be null. *)
Definition sk_sp (A : Type) : Type := option A.

(** [p->...] on a smart pointer. *)
Definition deref {A : Type} (p : sk_sp A) : outcome A :=
  match p with
  | Some a => Ret a
  | None => NullDeref
  end.

(** Modelled from the spec: the [SkASSERT] macro, declared in a header that
    is not part of src/.  The spec reads it as a fatal
    assertion: a false condition halts the program. *)
Definition SkASSERT (cond : bool) : outcome unit :=
  if cond then Ret tt else AssertFailed.

(** Modelled from the spec: the [SkAssertResult] macro, which evaluates a
    call that reports failure and halts when it fails ("a failure here is
    treated as a programming/logic error (fatal assertion)").  The callee's
    [bool] result and its output buffer are one [option]. *)
Definition SkAssertResult {A : Type} (r : option A) : outcome A :=
  match r with
  | Some a => Ret a
  | None => AssertFailed
  end.

(** ** Colours *)

(** [SkColor]: a packed 32-bit ARGB value. *)
Definition SkColor : Type := Z.

(** The three colour channels of a packed colour, one byte each, below the
    alpha byte.  Which byte holds which colour plays no part below: the
    xformer only ever tests the three together. *)
Definition channel (k : Z) (c : SkColor) : Z := Z.land (Z.shiftr c (8 * k)) 255.
Definition SkColorGetB : SkColor -> Z := channel 0.
Definition SkColorGetG : SkColor -> Z := channel 1.
Definition SkColorGetR : SkColor -> Z := channel 2.

(** ** Opaque Skia types

    Types and enumerators the xformer only passes along; their declarations
    live in headers outside src/. *)

Class SkiaTypes : Type := {
  SkScalar : Type;
  SkScalar_zero : SkScalar;
  SkMatrix : Type;
  TileMode : Type;
  TileMode_zero : TileMode;
  SkBlendMode : Type;
  SkColorSpace : Type;
  SkBitmap : Type;
  SkImage : Type;
  (** [sk_sp] comparison is pointer identity. *)
  SkImage_eq_dec : forall a b : SkImage, {a = b} + {a <> b};
  SkColorFilter : Type;
  SkDrawLooper : Type;
  (** The fields of a paint the xformer never reads. *)
  SkPaintRest : Type;
  SkTransferFunctionBehavior : Type;
  kIgnore : SkTransferFunctionBehavior;
  SkCopyPixelsMode : Type;
  kNever_SkCopyPixelsMode : SkCopyPixelsMode;
  ColorFormat : Type;
  kBGRA_8888_ColorFormat : ColorFormat;
  SkAlphaType : Type;
  kUnpremul_SkAlphaType : SkAlphaType
}.

Section Xformer.

Context {T : SkiaTypes}.

Record SkPoint : Type := mkSkPoint { fX : SkScalar; fY : SkScalar }.

(** [SkShader::GradientType].  The xformer tests a value of this type as a
    condition, [if (auto type = ...)], which singles out the first
    enumerator. *)
Inductive GradientType : Type :=
| kNone_GradientType
| kColor_GradientType
| kLinear_GradientType
| kRadial_GradientType
| kSweep_GradientType
| kConical_GradientType.

Definition GradientType_to_bool (t : GradientType) : bool :=
  match t with
  | kNone_GradientType => false
  | _ => true
  end.

(** [SkShader::GradientInfo], the in-out structure of [asAGradient].
    [fColors] and [fColorOffsets] are pointers to caller storage: [None] is
    the null pointer, [Some buf] the storage and what it holds. *)
Record GradientInfo : Type := mkGradientInfo {
  fColorCount : Z;
  fColors : option (list SkColor);
  fColorOffsets : option (list SkScalar);
  fPoint : SkPoint * SkPoint;
  fRadius : SkScalar * SkScalar;
  fTileMode : TileMode;
  fGradientFlags : Z
}.

(** [SkShader::ComposeRec]. *)
Record ComposeRec (S : Type) : Type := mkComposeRec {
  fShaderA : S;
  fShaderB : S;
  fBlendMode : SkBlendMode
}.

(** The gradient a shader holds: ordered (colour, offset) stops and the
    geometry. *)
Record GradientDesc : Type := mkGradientDesc {
  stops : list (SkColor * SkScalar);
  points : SkPoint * SkPoint;
  radii : SkScalar * SkScalar;
  tileMode : TileMode;
  gradientFlags : Z
}.

(** A shader, as the xformer sees one: through its answers to the
    introspection calls.  [SkShader] is an open class; any combination of
    answers is a possible collaborator. *)
#[local] Unset Elimination Schemes.
Inductive SkShader : Type := mkSkShader {
  isConstant : bool;
  asLuminanceColor : option SkColor;
  isAImage : option (SkImage * SkMatrix * (TileMode * TileMode));
  asACompose : option (ComposeRec SkShader);
  gradientType : GradientType;
  gradientDesc : GradientDesc;
  getLocalMatrix : SkMatrix
}.
#[local] Set Elimination Schemes.

(** Writing [xs] into caller storage [buf], from its start. *)
Definition fill {A : Type} (buf xs : list A) : list A :=
  xs ++ skipn (length xs) buf.

(** Modelled from the spec: [SkShader::asAGradient], the introspection call
    for gradients, which the shader classes define outside src/.  It follows
    the two-phase "query shape, then fetch" protocol: every call reports the
    kind, the geometry and the stop count; the stops are
    copied out only into storage the caller supplied ([fColors],
    [fColorOffsets] not null) and announced as large enough ([fColorCount] on
    entry).  A shader that is no gradient answers [kNone_GradientType] and
    leaves the structure alone. *)
Definition asAGradient (shader : SkShader) (info : GradientInfo)
  : GradientType * GradientInfo :=
  match gradientType shader with
  | kNone_GradientType => (kNone_GradientType, info)
  | type =>
      let d := gradientDesc shader in
      let n := Z.of_nat (length (stops d)) in
      let fetch {A : Type} (storage : option (list A)) (xs : list A) :=
        if n <=? fColorCount info
        then option_map (fun buf => fill buf xs) storage
        else storage in
      (type,
       {| fColorCount := n;
          fColors := fetch (fColors info) (map fst (stops d));
          fColorOffsets := fetch (fColorOffsets info) (map snd (stops d));
          fPoint := points d;
          fRadius := radii d;
          fTileMode := tileMode d;
          fGradientFlags := gradientFlags d |})
  end.

(** Modelled from the spec: [SkColorSpaceXform], the bound numeric transform
    ("the actual numeric color-space conversion transform ... the core only
    invokes it").  Its [apply] is a "pure function of input colors given the
    bound transform", works pixel by pixel, and reports failure by its [bool]
    result: for the given formats and alpha type the transform is either
    unsupported or a map on pixels. *)
Record SkColorSpaceXform : Type := mkSkColorSpaceXform {
  xform_pixel : ColorFormat -> ColorFormat -> SkAlphaType -> option (SkColor -> SkColor)
}.

(** [SkColorSpaceXform::apply(dstFormat, dst, srcFormat, src, n, alphaType)]:
    reads [n] pixels at [src]; the result is the [bool] and what [dst] then
    holds. *)
Definition SkColorSpaceXform_apply (x : SkColorSpaceXform)
    (dstFormat srcFormat : ColorFormat) (src : list SkColor) (n : Z)
    (alphaType : SkAlphaType) : option (list SkColor) :=
  option_map (fun f => map f (firstn (Z.to_nat n) src))
             (xform_pixel x dstFormat srcFormat alphaType).

(** The xformer: its two private fields. *)
Record SkColorSpaceXformer : Type := mkSkColorSpaceXformer {
  fDst : sk_sp SkColorSpace;
  fFromSRGB : SkColorSpaceXform
}.

(** [SkPaint], by the accessors the xformer uses. *)
Record SkPaint : Type := mkSkPaint {
  getColor : SkColor;
  getShader : sk_sp SkShader;
  getColorFilter : sk_sp SkColorFilter;
  getDrawLooper : sk_sp SkDrawLooper;
  paintRest : SkPaintRest
}.

Definition setColor (p : SkPaint) (c : SkColor) : SkPaint :=
  mkSkPaint c (getShader p) (getColorFilter p) (getDrawLooper p) (paintRest p).
Definition setShader (p : SkPaint) (s : sk_sp SkShader) : SkPaint :=
  mkSkPaint (getColor p) s (getColorFilter p) (getDrawLooper p) (paintRest p).
Definition setColorFilter (p : SkPaint) (f : sk_sp SkColorFilter) : SkPaint :=
  mkSkPaint (getColor p) (getShader p) f (getDrawLooper p) (paintRest p).
Definition setDrawLooper (p : SkPaint) (l : sk_sp SkDrawLooper) : SkPaint :=
  mkSkPaint (getColor p) (getShader p) (getColorFilter p) l (paintRest p).

(** ** Collaborators

    The functions of Skia the xformer calls and does not define: the factory
    of the numeric transform, the image operations, the shader and colour
    filter builders, and the draw looper's own retargeting.  Every builder
    returns an [sk_sp], which may be null. *)

Class Collaborators : Type := {
  SkColorSpace_MakeSRGB : sk_sp SkColorSpace;
  SkColorSpaceXform_New :
    sk_sp SkColorSpace -> sk_sp SkColorSpace -> SkTransferFunctionBehavior ->
    sk_sp SkColorSpaceXform;
  SkMakeImageFromRasterBitmap : SkBitmap -> SkCopyPixelsMode -> sk_sp SkImage;
  SkImage_makeColorSpace : SkImage -> sk_sp SkColorSpace -> sk_sp SkImage;
  SkImage_makeShader : SkImage -> TileMode -> TileMode -> SkMatrix -> sk_sp SkShader;
  MakeColorShader : SkColor -> sk_sp SkShader;
  makeWithLocalMatrix : SkShader -> SkMatrix -> sk_sp SkShader;
  MakeComposeShader :
    sk_sp SkShader -> sk_sp SkShader -> SkBlendMode -> sk_sp SkShader;
  MakeLinear :
    SkPoint * SkPoint -> list SkColor -> option (list SkScalar) -> Z ->
    TileMode -> Z -> SkMatrix -> sk_sp SkShader;
  MakeRadial :
    SkPoint -> SkScalar -> list SkColor -> option (list SkScalar) -> Z ->
    TileMode -> Z -> SkMatrix -> sk_sp SkShader;
  MakeSweep :
    SkScalar -> SkScalar -> list SkColor -> option (list SkScalar) -> Z ->
    Z -> SkMatrix -> sk_sp SkShader;
  MakeTwoPointConical :
    SkPoint -> SkScalar -> SkPoint -> SkScalar -> list SkColor ->
    option (list SkScalar) -> Z -> TileMode -> Z -> SkMatrix -> sk_sp SkShader;
  asColorMode : SkColorFilter -> option (SkColor * SkBlendMode);
  MakeModeFilter : SkColor -> SkBlendMode -> sk_sp SkColorFilter;
  (** [looper->makeColorSpace(this)]: the looper is handed the xformer and
      calls back into it for the paints it owns, so the call halts when one
      of those conversions does. *)
  SkDrawLooper_makeColorSpace :
    SkDrawLooper -> SkColorSpaceXformer -> outcome (sk_sp SkDrawLooper)
}.

Context {E : Collaborators}.

(** ** The xformer *)

(** [SkColorSpaceXformer::Make]. *)
Definition Make (dst : sk_sp SkColorSpace) : sk_sp SkColorSpaceXformer :=
  match SkColorSpaceXform_New SkColorSpace_MakeSRGB dst kIgnore with
  | None => None
  | Some fromSRGB => Some {| fDst := dst; fFromSRGB := fromSRGB |}
  end.

(** [apply(const SkImage* src)]. *)
Definition apply_SkImage (this : SkColorSpaceXformer) (src : SkImage) : sk_sp SkImage :=
  SkImage_makeColorSpace src (fDst this).

(** [xformed != image] on two [sk_sp<SkImage>]. *)
Definition sk_sp_SkImage_neqb (a b : sk_sp SkImage) : bool :=
  match a, b with
  | Some x, Some y => if SkImage_eq_dec x y then false else true
  | None, None => false
  | _, _ => true
  end.

(** [apply(const SkBitmap& src)]. *)
Definition apply_SkBitmap (this : SkColorSpaceXformer) (src : SkBitmap)
  : outcome (sk_sp SkImage) :=
  match SkMakeImageFromRasterBitmap src kNever_SkCopyPixelsMode with
  | None => Ret None
  | Some image =>
      let xformed := SkImage_makeColorSpace image (fDst this) in
      do _ <- SkASSERT (sk_sp_SkImage_neqb xformed (Some image));
      Ret xformed
  end.

(** [apply(SkColor* xformed, const SkColor* srgb, int n)]; the result is what
    [xformed] holds afterwards. *)
Definition apply_SkColors (this : SkColorSpaceXformer) (srgb : list SkColor) (n : Z)
  : outcome (list SkColor) :=
  SkAssertResult
    (SkColorSpaceXform_apply (fFromSRGB this)
       kBGRA_8888_ColorFormat kBGRA_8888_ColorFormat srgb n kUnpremul_SkAlphaType).

(** What an [SkColor] variable holds before it is assigned. *)
Definition uninitialized : SkColor := 0.

(** [apply(SkColor)]: the batch form on a buffer of one. *)
Definition apply_SkColor (this : SkColorSpaceXformer) (srgb : SkColor) : outcome SkColor :=
  do xformed <- apply_SkColors this [srgb] 1;
  Ret (hd uninitialized xformed).

(** [SkSTArray<8, T> a(n)]: storage for [n] elements, not yet written. *)
Definition SkSTArray {A : Type} (junk : A) (n : Z) : list A :=
  repeat junk (Z.to_nat n).

(** [sk_bzero(&gradient, sizeof(gradient))]. *)
Definition GradientInfo_zero : GradientInfo :=
  {| fColorCount := 0;
     fColors := None;
     fColorOffsets := None;
     fPoint := (mkSkPoint SkScalar_zero SkScalar_zero, mkSkPoint SkScalar_zero SkScalar_zero);
     fRadius := (SkScalar_zero, SkScalar_zero);
     fTileMode := TileMode_zero;
     fGradientFlags := 0 |}.

(** [gradient.fColors = colors.begin(); gradient.fColorOffsets = pos.begin();] *)
Definition set_storage (gradient : GradientInfo)
    (colors : list SkColor) (pos : list SkScalar) : GradientInfo :=
  {| fColorCount := fColorCount gradient;
     fColors := Some colors;
     fColorOffsets := Some pos;
     fPoint := fPoint gradient;
     fRadius := fRadius gradient;
     fTileMode := fTileMode gradient;
     fGradientFlags := fGradientFlags gradient |}.

(** The [switch (type)] of the gradient branch.  After the [break] of its
    first two cases control leaves the [if] and reaches the last [return] of
    the function. *)
Definition gradient_switch (shader : SkShader) (type : GradientType)
    (gradient : GradientInfo) (xformed : list SkColor) : outcome (sk_sp SkShader) :=
  match type with
  | kNone_GradientType
  | kColor_GradientType =>
      do _ <- SkASSERT false;
      Ret (Some shader)
  | kLinear_GradientType =>
      Ret (MakeLinear (fPoint gradient)
                      xformed
                      (fColorOffsets gradient)
                      (fColorCount gradient)
                      (fTileMode gradient)
                      (fGradientFlags gradient)
                      (getLocalMatrix shader))
  | kRadial_GradientType =>
      Ret (MakeRadial (fst (fPoint gradient))
                      (fst (fRadius gradient))
                      xformed
                      (fColorOffsets gradient)
                      (fColorCount gradient)
                      (fTileMode gradient)
                      (fGradientFlags gradient)
                      (getLocalMatrix shader))
  | kSweep_GradientType =>
      Ret (MakeSweep (fX (fst (fPoint gradient)))
                     (fY (fst (fPoint gradient)))
                     xformed
                     (fColorOffsets gradient)
                     (fColorCount gradient)
                     (fGradientFlags gradient)
                     (getLocalMatrix shader))
  | kConical_GradientType =>
      Ret (MakeTwoPointConical (fst (fPoint gradient))
                               (fst (fRadius gradient))
                               (snd (fPoint gradient))
                               (snd (fRadius gradient))
                               xformed
                               (fColorOffsets gradient)
                               (fColorCount gradient)
                               (fTileMode gradient)
                               (fGradientFlags gradient)
                               (getLocalMatrix shader))
  end.

(** The gradient query and what follows it, to the end of
    [apply(const SkShader* shader)]: the code every shader reaches that none
    of the first three queries returned for. *)
Definition gradient_branch (this : SkColorSpaceXformer) (shader : SkShader)
  : outcome (sk_sp SkShader) :=
  let gradient := GradientInfo_zero in
  let '(type, gradient) := asAGradient shader gradient in
  if GradientType_to_bool type then
    let colors := SkSTArray uninitialized (fColorCount gradient) in
    let pos := SkSTArray SkScalar_zero (fColorCount gradient) in
    let gradient := set_storage gradient colors pos in
    let gradient := snd (asAGradient shader gradient) in
    do srgb <- deref (fColors gradient);
    do xformed <- apply_SkColors this srgb (fColorCount gradient);
    gradient_switch shader type gradient xformed
  else
    Ret (Some shader).

(** [shader->isConstant() && shader->asLuminanceColor(&color)]. *)
Definition constant_color (shader : SkShader) : option SkColor :=
  if isConstant shader then asLuminanceColor shader else None.

(** The body of the first [if]. *)
Definition color_branch (this : SkColorSpaceXformer) (shader : SkShader)
    (color : SkColor) : outcome (sk_sp SkShader) :=
  do xformed <- apply_SkColor this color;
  do colorShader <- deref (MakeColorShader xformed);
  Ret (makeWithLocalMatrix colorShader (getLocalMatrix shader)).

(** The body of the second [if]. *)
Definition image_branch (this : SkColorSpaceXformer)
    (img : SkImage) (local : SkMatrix) (xy : TileMode * TileMode)
  : outcome (sk_sp SkShader) :=
  do image <- deref (apply_SkImage this img);
  Ret (SkImage_makeShader image (fst xy) (snd xy) local).

(** [apply(const SkShader* shader)]. *)
Fixpoint apply_SkShader (this : SkColorSpaceXformer) (shader : SkShader) {struct shader}
  : outcome (sk_sp SkShader) :=
  match constant_color shader with
  | Some color => color_branch this shader color
  | None =>
      match isAImage shader with
      | Some (img, local, xy) => image_branch this img local xy
      | None =>
          match asACompose shader with
          | Some compose =>
              do A <- apply_SkShader this (fShaderA compose);
              do B <- apply_SkShader this (fShaderB compose);
              match A, B with
              | Some _, Some _ =>
                  do composed <- deref (MakeComposeShader A B (fBlendMode compose));
                  Ret (makeWithLocalMatrix composed (getLocalMatrix shader))
              | _, _ => gradient_branch this shader
              end
          | None => gradient_branch this shader
          end
      end
  end.

(** [src.getColor() & 0xffffff]. *)
Definition rgb_bits (c : SkColor) : Z := Z.land c 0xffffff.

(** [apply(const SkPaint& src)]. *)
Definition apply_SkPaint (this : SkColorSpaceXformer) (src : SkPaint) : outcome SkPaint :=
  let dst := src in
  do dst <- (if rgb_bits (getColor src) =? 0 then Ret dst
             else do c <- apply_SkColor this (getColor src);
                  Ret (setColor dst c));
  do dst <- match getShader src with
            | Some shader =>
                do s <- apply_SkShader this shader;
                Ret (setShader dst s)
            | None => Ret dst
            end;
  do dst <- match getColorFilter src with
            | Some cf =>
                match asColorMode cf with
                | Some (color, mode) =>
                    do c <- apply_SkColor this color;
                    Ret (setColorFilter dst (MakeModeFilter c mode))
                | None => Ret dst
                end
            | None => Ret dst
            end;
  do dst <- match getDrawLooper src with
            | Some looper =>
                do l <- SkDrawLooper_makeColorSpace looper this;
                Ret (setDrawLooper dst l)
            | None => Ret dst
            end;
  Ret dst.

(** The formats and alpha type the xformer always asks for. *)
Definition bound_pixel (this : SkColorSpaceXformer) : option (SkColor -> SkColor) :=
  xform_pixel (fFromSRGB this)
    kBGRA_8888_ColorFormat kBGRA_8888_ColorFormat kUnpremul_SkAlphaType.

(** The stops of the gradient a shader holds, as the three arrays of the
    gradient builders. *)
Definition stop_colors (shader : SkShader) : list SkColor :=
  map fst (stops (gradientDesc shader)).
Definition stop_offsets (shader : SkShader) : list SkScalar :=
  map snd (stops (gradientDesc shader)).
Definition stop_count (shader : SkShader) : Z :=
  Z.of_nat (length (stops (gradientDesc shader))).

(** The gradient a shader reports once the caller's storage is filled. *)
Definition reported (shader : SkShader) : GradientInfo :=
  {| fColorCount := stop_count shader;
     fColors := Some (stop_colors shader);
     fColorOffsets := Some (stop_offsets shader);
     fPoint := points (gradientDesc shader);
     fRadius := radii (gradientDesc shader);
     fTileMode := tileMode (gradientDesc shader);
     fGradientFlags := gradientFlags (gradientDesc shader) |}.

(** The same shader reporting another tile mode for its gradient. *)
Definition with_tileMode (shader : SkShader) (mode : TileMode) : SkShader :=
  let d := gradientDesc shader in
  mkSkShader (isConstant shader) (asLuminanceColor shader) (isAImage shader)
             (asACompose shader) (gradientType shader)
             (mkGradientDesc (stops d) (points d) (radii d) mode (gradientFlags d))
             (getLocalMatrix shader).

(** Converting the elements of a list one after the other, stopping at the
    first that does not return. *)
Fixpoint traverse {A B : Type} (g : A -> outcome B) (l : list A) : outcome (list B) :=
  match l with
  | [] => Ret []
  | a :: l' =>
      do b <- g a;
      do bs <- traverse g l';
      Ret (b :: bs)
  end.

(** A way of reading a tile mode off a converted shader [tileOf] agrees with
    the conversion of [shader] when it finds the tile mode the original
    reported. *)
Definition tile_mode_carried_over (this : SkColorSpaceXformer)
    (tileOf : sk_sp SkShader -> TileMode) (shader : SkShader) : Prop :=
  forall r, apply_SkShader this shader = Ret r ->
            tileOf r = tileMode (gradientDesc shader).

(** ** Shader trees

    A shader and, through [asACompose], the children of the composites
    below it. *)

(** Every node of the tree satisfies [P]. *)
Fixpoint all_nodes (P : SkShader -> bool) (shader : SkShader) {struct shader} : bool :=
  P shader &&
  match asACompose shader with
  | Some compose =>
      all_nodes P (fShaderA compose) && all_nodes P (fShaderB compose)
  | None => true
  end.

(** A node that reports the colour gradient kind also reports a constant
    colour, so that the first branch of [apply_SkShader] returns for it. *)
Definition color_kind_is_constant (shader : SkShader) : bool :=
  match gradientType shader with
  | kColor_GradientType =>
      match constant_color shader with
      | Some _ => true
      | None => false
      end
  | _ => true
  end.

(** The image a node reports, if any, is one the xformer can retarget. *)
Definition image_converts (this : SkColorSpaceXformer) (shader : SkShader) : bool :=
  match isAImage shader with
  | Some (img, _, _) =>
      match apply_SkImage this img with
      | Some _ => true
      | None => false
      end
  | None => true
  end.

End Xformer.

(** ** A small instance

    Concrete collaborators to run the xformer on: handles are numbers, the
    builders record their arguments in the node they return, and a gradient
    builder refuses an empty stop list. *)

Module Demo.

Inductive Tile : Type := kClamp_TileMode | kRepeat_TileMode | kMirror_TileMode.

#[global] Instance types : SkiaTypes :=
  {| SkScalar := Z;
     SkScalar_zero := 0;
     SkMatrix := Z;
     TileMode := Tile;
     TileMode_zero := kClamp_TileMode;
     SkBlendMode := Z;
     SkColorSpace := Z;
     SkBitmap := Z;
     SkImage := Z;
     SkImage_eq_dec := Z.eq_dec;
     SkColorFilter := option (SkColor * Z);
     SkDrawLooper := Z;
     SkPaintRest := unit;
     SkTransferFunctionBehavior := unit;
     kIgnore := tt;
     SkCopyPixelsMode := unit;
     kNever_SkCopyPixelsMode := tt;
     ColorFormat := unit;
     kBGRA_8888_ColorFormat := tt;
     SkAlphaType := unit;
     kUnpremul_SkAlphaType := tt |}.

Definition no_gradient : GradientDesc :=
  mkGradientDesc [] (mkSkPoint 0 0, mkSkPoint 0 0) (0, 0) kClamp_TileMode 0.

Definition opaqueShader (m : SkMatrix) : SkShader :=
  mkSkShader false None None None kNone_GradientType no_gradient m.

Definition colorShader (c : SkColor) : SkShader :=
  mkSkShader true (Some c) None None kColor_GradientType
    (mkGradientDesc [(c, 0)] (mkSkPoint 0 0, mkSkPoint 0 0) (0, 0) kClamp_TileMode 0) 0.

Definition imageShader (img : SkImage) (tx ty : Tile) (m : SkMatrix) : SkShader :=
  mkSkShader false None (Some (img, m, (tx, ty))) None kNone_GradientType no_gradient m.

Definition composeShader (a b : SkShader) (mode : SkBlendMode) (m : SkMatrix) : SkShader :=
  mkSkShader false None None (Some (mkComposeRec a b mode)) kNone_GradientType no_gradient m.

Definition gradientShader (type : GradientType) (d : GradientDesc) (m : SkMatrix) : SkShader :=
  mkSkShader false None None None type d m.

Definition withLocalMatrix (s : SkShader) (m : SkMatrix) : SkShader :=
  mkSkShader (isConstant s) (asLuminanceColor s) (isAImage s) (asACompose s)
             (gradientType s) (gradientDesc s) m.

(** A gradient builder: no shader for fewer than one stop. *)
Definition buildGradient (type : GradientType) (pts : SkPoint * SkPoint)
    (rad : SkScalar * SkScalar) (colors : list SkColor) (pos : option (list SkScalar))
    (n : Z) (mode : Tile) (flags : Z) (m : SkMatrix) : sk_sp SkShader :=
  if n <? 1 then None
  else Some (gradientShader type
               (mkGradientDesc (combine colors (match pos with Some l => l | None => [] end))
                               pts rad mode flags) m).

(** The toy transform to colour space [d]: alpha is kept, the number [d] is
    added to the 24 colour bits.  Space 0 is the source space itself. *)
Definition toy_pixel (d : Z) (c : SkColor) : SkColor :=
  Z.lor (Z.land c 0xff000000) (Z.land (Z.land c 0xffffff + d) 0xffffff).

Definition toy_xform (d : Z) : SkColorSpaceXform :=
  mkSkColorSpaceXform (fun _ _ _ => Some (toy_pixel d)).

#[global] Instance collaborators : Collaborators :=
  {| SkColorSpace_MakeSRGB := Some 0;
     SkColorSpaceXform_New := fun src dst _ =>
       match src, dst with
       | Some _, Some d => if d <? 0 then None else Some (toy_xform d)
       | _, _ => None
       end;
     SkMakeImageFromRasterBitmap := fun b _ => if b <? 0 then None else Some b;
     (* image 0 cannot be read; image 7 is already in the destination space *)
     SkImage_makeColorSpace := fun img _ =>
       if img =? 0 then None else if img =? 7 then Some img else Some (img + 1000);
     SkImage_makeShader := fun img tx ty m => Some (imageShader img tx ty m);
     MakeColorShader := fun c => Some (colorShader c);
     makeWithLocalMatrix := fun s m => Some (withLocalMatrix s m);
     MakeComposeShader := fun a b mode =>
       match a, b with
       | Some a, Some b => Some (composeShader a b mode 0)
       | _, _ => None
       end;
     MakeLinear := fun pts colors pos n mode flags m =>
       buildGradient kLinear_GradientType pts (0, 0) colors pos n mode flags m;
     MakeRadial := fun p r colors pos n mode flags m =>
       buildGradient kRadial_GradientType (p, p) (r, r) colors pos n mode flags m;
     MakeSweep := fun x y colors pos n flags m =>
       buildGradient kSweep_GradientType (mkSkPoint x y, mkSkPoint x y) (0, 0)
                     colors pos n kClamp_TileMode flags m;
     MakeTwoPointConical := fun p0 r0 p1 r1 colors pos n mode flags m =>
       buildGradient kConical_GradientType (p0, p1) (r0, r1) colors pos n mode flags m;
     asColorMode := fun cf => cf;
     MakeModeFilter := fun c mode => Some (Some (c, mode));
     (* looper 13 owns a paint that cannot be converted *)
     SkDrawLooper_makeColorSpace := fun l _ =>
       if l =? 13 then NullDeref else Ret (Some l) |}.

(** The xformer to colour space 5. *)
Definition xformer : SkColorSpaceXformer := mkSkColorSpaceXformer (Some 5) (toy_xform 5).

Definition red : SkColor := 0xffff0000.
Definition green : SkColor := 0xff00ff00.
Definition blue : SkColor := 0xff0000ff.
Definition black : SkColor := 0xff000000.

(** The gradient of the spec's example: offsets 0, 0.3, 0.3, 1 (in tenths). *)
Definition four_stops (mode : Tile) : GradientDesc :=
  mkGradientDesc [(red, 0); (green, 3); (green, 3); (blue, 10)]
                 (mkSkPoint 1 2, mkSkPoint 3 4) (5, 6) mode 1.

(** A gradient without stops: the builders give no shader for it. *)
Definition empty_linear : SkShader :=
  gradientShader kLinear_GradientType no_gradient 0.

(** An image shader on the image that cannot be read. *)
Definition unreadable : SkShader :=
  imageShader 0 kClamp_TileMode kRepeat_TileMode 9.

(** A composite of a colour and of a gradient no builder accepts. *)
Definition half_convertible : SkShader :=
  composeShader (colorShader red) empty_linear 3 4.

(** The gradient of the spec's example, as a linear gradient. *)
Definition four_stop_linear : SkShader :=
  gradientShader kLinear_GradientType (four_stops kRepeat_TileMode) 8.

(** Two sweep gradients that differ in their tile mode only. *)
Definition sweep (mode : Tile) : SkShader :=
  gradientShader kSweep_GradientType (four_stops mode) 8.

Definition paint (c : SkColor) (s : sk_sp SkShader) (cf : option (SkColor * Z)) : SkPaint :=
  mkSkPaint c s (Some cf) None tt.

(** An xformer whose transform rejects the pixel format asked for. *)
Definition broken_xformer : SkColorSpaceXformer :=
  mkSkColorSpaceXformer (Some 5) (mkSkColorSpaceXform (fun _ _ _ => None)).

(** A transform that halves the three colour channels and keeps the rest. *)
Definition dim_pixel (c : SkColor) : SkColor :=
  c - Z.land c 0xffffff + Z.shiftr (Z.land c 0xfefefe) 1.

Definition dim_xformer : SkColorSpaceXformer :=
  mkSkColorSpaceXformer (Some 6) (mkSkColorSpaceXform (fun _ _ _ => Some dim_pixel)).

Definition two_colors : SkShader :=
  composeShader (colorShader red) (colorShader blue) 3 4.

(** A composite of a composite and of a shader on image 3. *)
Definition nested : SkShader :=
  composeShader two_colors (imageShader 3 kClamp_TileMode kRepeat_TileMode 9) 2 6.

(** A composite whose second child is on the image that cannot be read. *)
Definition with_unreadable : SkShader :=
  composeShader (colorShader red) unreadable 3 4.

(** A black paint without shader or colour filter, with draw looper 11. *)
Definition looping_paint : SkPaint := mkSkPaint black None None (Some 11) tt.


(** A linear gradient from black to red. *)
Definition black_to_red : SkShader :=
  gradientShader kLinear_GradientType
    (mkGradientDesc [(black, 0); (red, 10)]
                    (mkSkPoint 1 2, mkSkPoint 3 4) (0, 0) kMirror_TileMode 1) 8.

(** A red paint with a composite shader, a mode filter and draw looper 11. *)
Definition full_paint : SkPaint :=
  mkSkPaint red (Some two_colors) (Some (Some (black, 3))) (Some 11) tt.

(** A black paint whose draw looper is the one that cannot be retargeted. *)
Definition stuck_looper_paint : SkPaint := mkSkPaint black None None (Some 13) tt.

(** A black paint with nothing else on it. *)
Definition bare_paint : SkPaint := mkSkPaint black None None None tt.

End Demo.

(** * Properties *)

Unset Implicit Arguments.

Section Facts.

Context {T : SkiaTypes} {E : Collaborators}.

(** ** First facts: colours *)

(** The mask [0xffffff] covers exactly the three colour channels. *)
Lemma rgb_bits_zero_iff (c : SkColor) :
  rgb_bits c = 0 <->
  SkColorGetR c = 0 /\ SkColorGetG c = 0 /\ SkColorGetB c = 0.
Proof.
  unfold rgb_bits, SkColorGetR, SkColorGetG, SkColorGetB, channel.
  change 0xffffff with (Z.ones 24). change 255 with (Z.ones 8).
  rewrite !Z.land_ones, !Z.shiftr_div_pow2 by lia.
  change (2 ^ 24) with 16777216. change (2 ^ 8) with 256.
  change (2 ^ (8 * 2)) with 65536. change (2 ^ (8 * 1)) with 256.
  change (2 ^ (8 * 0)) with 1.
  Z.div_mod_to_equations. lia.
Qed.

Lemma apply_SkColors_eq (this : SkColorSpaceXformer) (srgb : list SkColor) (n : Z) :
  apply_SkColors this srgb n =
  match bound_pixel this with
  | Some f => Ret (map f (firstn (Z.to_nat n) srgb))
  | None => AssertFailed
  end.
Proof.
  unfold apply_SkColors, SkColorSpaceXform_apply, bound_pixel.
  now destruct (xform_pixel _ _ _ _).
Qed.

Lemma apply_SkColor_eq (this : SkColorSpaceXformer) (srgb : SkColor) :
  apply_SkColor this srgb =
  match bound_pixel this with
  | Some f => Ret (f srgb)
  | None => AssertFailed
  end.
Proof.
  unfold apply_SkColor. rewrite apply_SkColors_eq.
  now destruct (bound_pixel this).
Qed.

Lemma apply_SkColors_all (this : SkColorSpaceXformer) (f : SkColor -> SkColor)
    (srgb : list SkColor) :
  bound_pixel this = Some f ->
  apply_SkColors this srgb (Z.of_nat (length srgb)) = Ret (map f srgb).
Proof.
  intros Hf. rewrite apply_SkColors_eq, Hf, Nat2Z.id, firstn_all. reflexivity.
Qed.

Lemma traverse_all_return {A B : Type} (g : A -> outcome B) (f : A -> B) (l : list A) :
  (forall a, g a = Ret (f a)) -> traverse g l = Ret (map f l).
Proof.
  intros Hg. induction l as [|a l IH]; simpl; [reflexivity|].
  now rewrite Hg, IH.
Qed.

Lemma traverse_first_fails {A B : Type} (g : A -> outcome B) (l : list A) :
  (forall a, g a = AssertFailed) -> l <> [] -> traverse g l = AssertFailed.
Proof.
  intros Hg Hl. destruct l as [|a l]; [contradiction|].
  simpl. now rewrite Hg.
Qed.

Lemma Forall2_map_r {A B : Type} (P : A -> B -> Prop) (g : A -> B) (l : list A) :
  (forall a, In a l -> P a (g a)) -> Forall2 P l (map g l).
Proof.
  induction l as [|a l IH]; intros H; simpl; constructor.
  - apply H. now left.
  - apply IH. intros b Hb. apply H. now right.
Qed.

(** ** First facts: the gradient query *)

Lemma fill_exact {A : Type} (junk : A) (xs : list A) :
  fill (SkSTArray junk (Z.of_nat (length xs))) xs = xs.
Proof.
  unfold fill, SkSTArray. rewrite Nat2Z.id.
  rewrite skipn_all2 by (rewrite repeat_length; lia).
  apply app_nil_r.
Qed.

(** The probe (null storage) reports the kind and the count; the fetch into
    storage of that count reports the stops. *)
Lemma asAGradient_probe_then_fetch (shader : SkShader) :
  gradientType shader <> kNone_GradientType ->
  let probed := snd (asAGradient shader GradientInfo_zero) in
  fst (asAGradient shader GradientInfo_zero) = gradientType shader /\
  fColorCount probed = stop_count shader /\
  snd (asAGradient shader
         (set_storage probed
            (SkSTArray uninitialized (fColorCount probed))
            (SkSTArray SkScalar_zero (fColorCount probed)))) = reported shader.
Proof.
  intros Hty. unfold asAGradient.
  assert (Hc : fill (SkSTArray uninitialized (stop_count shader)) (stop_colors shader)
               = stop_colors shader).
  { unfold stop_count.
    replace (length (stops (gradientDesc shader)))
      with (length (stop_colors shader)) by apply length_map.
    apply fill_exact. }
  assert (Hp : fill (SkSTArray SkScalar_zero (stop_count shader)) (stop_offsets shader)
               = stop_offsets shader).
  { unfold stop_count.
    replace (length (stops (gradientDesc shader)))
      with (length (stop_offsets shader)) by apply length_map.
    apply fill_exact. }
  destruct (gradientType shader); try congruence; cbn;
    fold (stop_count shader); fold (stop_colors shader); fold (stop_offsets shader);
    rewrite Z.leb_refl, Hc, Hp; repeat split.
Qed.

(** The gradient branch, with the two introspection calls resolved. *)
Lemma gradient_branch_eq (this : SkColorSpaceXformer) (shader : SkShader) :
  gradient_branch this shader =
  if GradientType_to_bool (gradientType shader) then
    do xformed <- apply_SkColors this (stop_colors shader) (stop_count shader);
    gradient_switch shader (gradientType shader) (reported shader) xformed
  else Ret (Some shader).
Proof.
  unfold gradient_branch.
  destruct (GradientType_to_bool (gradientType shader)) eqn:Hb.
  - assert (Hty : gradientType shader <> kNone_GradientType)
      by (intros H; rewrite H in Hb; discriminate).
    destruct (asAGradient_probe_then_fetch shader Hty) as (H1 & _ & H3).
    destruct (asAGradient shader GradientInfo_zero) as [ty g].
    simpl in H1, H3. subst ty. rewrite Hb, H3. reflexivity.
  - unfold asAGradient.
    destruct (gradientType shader); try discriminate; reflexivity.
Qed.

(** ** First facts: shaders and paints *)

Lemma asAGradient_kind (shader : SkShader) (info : GradientInfo) :
  fst (asAGradient shader info) = gradientType shader.
Proof.
  unfold asAGradient. now destruct (gradientType shader).
Qed.

(** One step of [apply_SkShader]. *)
Lemma apply_SkShader_eq (this : SkColorSpaceXformer) (shader : SkShader) :
  apply_SkShader this shader =
  match constant_color shader with
  | Some color => color_branch this shader color
  | None =>
      match isAImage shader with
      | Some (img, local, xy) => image_branch this img local xy
      | None =>
          match asACompose shader with
          | Some compose =>
              do A <- apply_SkShader this (fShaderA compose);
              do B <- apply_SkShader this (fShaderB compose);
              match A, B with
              | Some _, Some _ =>
                  do composed <- deref (MakeComposeShader A B (fBlendMode compose));
                  Ret (makeWithLocalMatrix composed (getLocalMatrix shader))
              | _, _ => gradient_branch this shader
              end
          | None => gradient_branch this shader
          end
      end
  end.
Proof.
  destruct shader; reflexivity.
Qed.

(** A shader the first three queries do not return for runs the gradient
    query. *)
Lemma apply_SkShader_gradient (this : SkColorSpaceXformer) (shader : SkShader) :
  constant_color shader = None ->
  isAImage shader = None ->
  asACompose shader = None ->
  apply_SkShader this shader = gradient_branch this shader.
Proof.
  intros Hc Hi Ha. rewrite apply_SkShader_eq, Hc, Hi, Ha. reflexivity.
Qed.

(** X4.  A composite whose two children convert is rebuilt from them. *)
Lemma compose_rebuilt (this : SkColorSpaceXformer) (shader : SkShader)
    (compose : ComposeRec SkShader) (A B : SkShader) :
  constant_color shader = None ->
  isAImage shader = None ->
  asACompose shader = Some compose ->
  apply_SkShader this (fShaderA compose) = Ret (Some A) ->
  apply_SkShader this (fShaderB compose) = Ret (Some B) ->
  apply_SkShader this shader =
  do composed <- deref (MakeComposeShader (Some A) (Some B) (fBlendMode compose));
  Ret (makeWithLocalMatrix composed (getLocalMatrix shader)).
Proof.
  intros Hc Hi Ha HA HB.
  rewrite apply_SkShader_eq, Hc, Hi, Ha, HA, HB. reflexivity.
Qed.

(** What a returned paint holds, field by field. *)
Lemma apply_SkPaint_inv (this : SkColorSpaceXformer) (src dst : SkPaint) :
  apply_SkPaint this src = Ret dst ->
  (if rgb_bits (getColor src) =? 0
   then getColor dst = getColor src
   else apply_SkColor this (getColor src) = Ret (getColor dst)) /\
  match getShader src with
  | Some shader => apply_SkShader this shader = Ret (getShader dst)
  | None => getShader dst = None
  end /\
  match getColorFilter src with
  | Some cf =>
      match asColorMode cf with
      | Some (color, mode) =>
          exists c, apply_SkColor this color = Ret c /\
                    getColorFilter dst = MakeModeFilter c mode
      | None => getColorFilter dst = Some cf
      end
  | None => getColorFilter dst = None
  end /\
  match getDrawLooper src with
  | Some looper => SkDrawLooper_makeColorSpace looper this = Ret (getDrawLooper dst)
  | None => getDrawLooper dst = None
  end /\
  paintRest dst = paintRest src.
Proof.
  unfold apply_SkPaint. intros H.
  destruct src as [c sh cf lp rest]. cbn [getColor getShader getColorFilter
    getDrawLooper paintRest] in *.
  destruct (rgb_bits c =? 0);
    [| destruct (apply_SkColor this c) as [c'| |]; cbn in H; try discriminate ];
    (destruct sh as [shader|];
       [ destruct (apply_SkShader this shader) as [s| |]; cbn in H; try discriminate |]);
    (destruct cf as [f|];
       [ destruct (asColorMode f) as [[color mode]|];
         [ destruct (apply_SkColor this color) as [k| |] eqn:Hk; cbn in H;
           try discriminate |] |]);
    (destruct lp as [looper|];
       [ destruct (SkDrawLooper_makeColorSpace looper this) as [l| |]; cbn in H;
         try discriminate |]);
    cbn in H; inversion H; subst; cbn;
    repeat split; eauto.
Qed.

(** A paint is converted whenever the transform is one the xformer can use,
    the shader, if any, is converted, and the draw looper, if any, makes its
    retargeted copy. *)
Lemma apply_SkPaint_returns (this : SkColorSpaceXformer) (src : SkPaint)
    (f : SkColor -> SkColor) :
  bound_pixel this = Some f ->
  (forall shader, getShader src = Some shader ->
                  exists r, apply_SkShader this shader = Ret r) ->
  (forall looper, getDrawLooper src = Some looper ->
                  exists l, SkDrawLooper_makeColorSpace looper this = Ret l) ->
  exists dst, apply_SkPaint this src = Ret dst.
Proof.
  intros Hf Hs Hl. unfold apply_SkPaint.
  rewrite !apply_SkColor_eq, Hf.
  destruct (rgb_bits (getColor src) =? 0); cbn;
    (destruct (getShader src) as [shader|];
       [ destruct (Hs shader eq_refl) as [r ->] |]); cbn;
    (destruct (getColorFilter src) as [cf|];
       [ destruct (asColorMode cf) as [[color mode]|];
         [ rewrite apply_SkColor_eq, Hf |] |]); cbn;
    (destruct (getDrawLooper src) as [looper|];
       [ destruct (Hl looper eq_refl) as [l ->] |]); cbn; eauto.
Qed.

(** ** Construction *)

(** C8.  [Make] returns no xformer exactly when the transform from sRGB to
    the destination cannot be built; the xformer it returns otherwise holds
    that destination and that transform.  No [apply] overload returns or
    updates an xformer, so the destination stays what [Make] stored. *)
Theorem Make_fails_iff_no_transform (dst : sk_sp SkColorSpace) :
  (Make dst = None <->
   SkColorSpaceXform_New SkColorSpace_MakeSRGB dst kIgnore = None) /\
  (forall this, Make dst = Some this ->
     fDst this = dst /\
     SkColorSpaceXform_New SkColorSpace_MakeSRGB dst kIgnore = Some (fFromSRGB this)).
Proof.
  unfold Make.
  destruct (SkColorSpaceXform_New SkColorSpace_MakeSRGB dst kIgnore) as [x|].
  - split; [split; discriminate|].
    intros this H. inversion H; subst. split; reflexivity.
  - split; [split; reflexivity|]. discriminate.
Qed.

(** ** Colours *)

(** C7.  The batch conversion of [n] colours is the scalar conversion of
    each colour read, in order: it returns the scalar results when they all
    return, and fails as the first of them does.  The scalar conversion is
    the batch conversion of a buffer of one, and returns the one element the
    batch wrote. *)
Theorem batch_conversion_is_elementwise (this : SkColorSpaceXformer)
    (srgb : list SkColor) (n : Z) :
  firstn (Z.to_nat n) srgb <> [] ->
  apply_SkColors this srgb n
    = traverse (apply_SkColor this) (firstn (Z.to_nat n) srgb) /\
  (forall xformed, apply_SkColors this srgb n = Ret xformed ->
     Forall2 (fun c x => apply_SkColor this c = Ret x)
             (firstn (Z.to_nat n) srgb) xformed) /\
  (forall c, apply_SkColor this c =
             (do one <- apply_SkColors this [c] 1; Ret (hd uninitialized one))) /\
  (forall c, apply_SkColors this [c] 1 =
             (do x <- apply_SkColor this c; Ret [x])).
Proof.
  intros Hne. rewrite apply_SkColors_eq.
  destruct (bound_pixel this) as [f|] eqn:Hf.
  - split; [|split; [|split]].
    + symmetry. apply traverse_all_return.
      intros c. now rewrite apply_SkColor_eq, Hf.
    + intros xformed H. inversion H; subst.
      apply Forall2_map_r. intros c _. now rewrite apply_SkColor_eq, Hf.
    + reflexivity.
    + intros c. now rewrite apply_SkColors_eq, apply_SkColor_eq, Hf.
  - split; [|split; [|split]].
    + symmetry. apply traverse_first_fails; [|exact Hne].
      intros c. now rewrite apply_SkColor_eq, Hf.
    + discriminate.
    + reflexivity.
    + intros c. now rewrite apply_SkColors_eq, apply_SkColor_eq, Hf.
Qed.

(** ** Images *)

(** C9, as the code has it.  The bitmap overload never lets the wrapper it
    made around the bitmap's pixels escape: a returned image is another
    object than the wrapper, and the call halts on its assertion when the
    image operation hands the wrapper back. *)
Theorem apply_SkBitmap_never_returns_wrapper (this : SkColorSpaceXformer)
    (src : SkBitmap) (image : SkImage) :
  SkMakeImageFromRasterBitmap src kNever_SkCopyPixelsMode = Some image ->
  (forall xformed, apply_SkBitmap this src = Ret (Some xformed) -> xformed <> image) /\
  (SkImage_makeColorSpace image (fDst this) = Some image ->
   apply_SkBitmap this src = AssertFailed).
Proof.
  intros Hw. unfold apply_SkBitmap. rewrite Hw.
  destruct (SkImage_makeColorSpace image (fDst this)) as [x|]; cbn.
  - destruct (SkImage_eq_dec x image) as [Heq|Hne]; cbn.
    + split; [discriminate | reflexivity].
    + split.
      * intros xformed H. inversion H; subst. exact Hne.
      * intros H. inversion H; subst. contradiction.
  - split; discriminate.
Qed.

(** ** Shaders *)

(** C5.  A shader that answers no to the four queries comes back itself. *)
Theorem unrecognized_shader_returned_itself (this : SkColorSpaceXformer)
    (shader : SkShader) :
  constant_color shader = None ->
  isAImage shader = None ->
  asACompose shader = None ->
  fst (asAGradient shader GradientInfo_zero) = kNone_GradientType ->
  apply_SkShader this shader = Ret (Some shader).
Proof.
  intros Hc Hi Ha Hg. rewrite asAGradient_kind in Hg.
  rewrite apply_SkShader_gradient, gradient_branch_eq, Hg by assumption.
  reflexivity.
Qed.

(** C2.  An image shader whose image cannot be retargeted: the null image is
    dereferenced for [makeShader]; the conversion does not return. *)
Theorem image_shader_null_image_dereferenced (this : SkColorSpaceXformer)
    (shader : SkShader) (img : SkImage) (local : SkMatrix) (xy : TileMode * TileMode) :
  constant_color shader = None ->
  isAImage shader = Some (img, local, xy) ->
  apply_SkImage this img = None ->
  apply_SkShader this shader = NullDeref.
Proof.
  intros Hc Hi Hn. rewrite apply_SkShader_eq, Hc, Hi.
  unfold image_branch. rewrite Hn. reflexivity.
Qed.

(** C1, as the code has it.  When the conversion of a child of a composite
    yields no shader, no composite is built from the children: the
    conversion goes on to the gradient query, and gives back the composite
    itself when that query answers no. *)
Theorem compose_failed_child_falls_through (this : SkColorSpaceXformer)
    (shader : SkShader) (compose : ComposeRec SkShader) (A B : sk_sp SkShader) :
  constant_color shader = None ->
  isAImage shader = None ->
  asACompose shader = Some compose ->
  apply_SkShader this (fShaderA compose) = Ret A ->
  apply_SkShader this (fShaderB compose) = Ret B ->
  A = None \/ B = None ->
  apply_SkShader this shader = gradient_branch this shader /\
  (fst (asAGradient shader GradientInfo_zero) = kNone_GradientType ->
   apply_SkShader this shader = Ret (Some shader)).
Proof.
  intros Hc Hi Ha HA HB Hnull.
  assert (Hfall : apply_SkShader this shader = gradient_branch this shader).
  { rewrite apply_SkShader_eq, Hc, Hi, Ha, HA, HB. cbn.
    destruct Hnull; subst; [|destruct A]; reflexivity. }
  split; [exact Hfall|].
  intros Hg. rewrite asAGradient_kind in Hg.
  rewrite Hfall, gradient_branch_eq, Hg. reflexivity.
Qed.


(** X9.  The sweep builder is called without a tile mode: a sweep gradient
    converts alike whatever tile mode it reports. *)
Lemma sweep_conversion_ignores_tile_mode (this : SkColorSpaceXformer)
    (shader : SkShader) (mode : TileMode) :
  constant_color shader = None ->
  isAImage shader = None ->
  asACompose shader = None ->
  gradientType shader = kSweep_GradientType ->
  apply_SkShader this (with_tileMode shader mode) = apply_SkShader this shader.
Proof.
  intros Hc Hi Ha Hg.
  rewrite (apply_SkShader_gradient this shader) by assumption.
  rewrite apply_SkShader_gradient by (destruct shader; assumption).
  rewrite !gradient_branch_eq.
  destruct shader as [ic lc im co gt gd lm]. cbn in Hg |- *. subst gt.
  reflexivity.
Qed.

(** C3, as the code has it.  A gradient of one of the four kinds is rebuilt
    by the builder of its kind from the geometry, flags and local matrix it
    reported, the offsets as reported, and the colours converted by one
    batch call, each the scalar conversion of the colour at its index.  The
    tile mode goes to the linear, radial and conical builders; the sweep
    builder takes none. *)
Theorem gradient_rebuilt_with_converted_stops (this : SkColorSpaceXformer)
    (shader : SkShader) (f : SkColor -> SkColor) :
  constant_color shader = None ->
  isAImage shader = None ->
  asACompose shader = None ->
  bound_pixel this = Some f ->
  let d := gradientDesc shader in
  let xformed := map f (stop_colors shader) in
  apply_SkColors this (stop_colors shader) (stop_count shader) = Ret xformed /\
  Forall2 (fun c x => apply_SkColor this c = Ret x) (stop_colors shader) xformed /\
  match gradientType shader with
  | kLinear_GradientType =>
      apply_SkShader this shader =
      Ret (MakeLinear (points d) xformed (Some (stop_offsets shader))
             (stop_count shader) (tileMode d) (gradientFlags d) (getLocalMatrix shader))
  | kRadial_GradientType =>
      apply_SkShader this shader =
      Ret (MakeRadial (fst (points d)) (fst (radii d)) xformed
             (Some (stop_offsets shader)) (stop_count shader) (tileMode d)
             (gradientFlags d) (getLocalMatrix shader))
  | kSweep_GradientType =>
      apply_SkShader this shader =
      Ret (MakeSweep (fX (fst (points d))) (fY (fst (points d))) xformed
             (Some (stop_offsets shader)) (stop_count shader)
             (gradientFlags d) (getLocalMatrix shader))
  | kConical_GradientType =>
      apply_SkShader this shader =
      Ret (MakeTwoPointConical (fst (points d)) (fst (radii d))
             (snd (points d)) (snd (radii d)) xformed
             (Some (stop_offsets shader)) (stop_count shader) (tileMode d)
             (gradientFlags d) (getLocalMatrix shader))
  | kNone_GradientType | kColor_GradientType => True
  end.
Proof.
  intros Hc Hi Ha Hf d xformed.
  assert (Hbatch : apply_SkColors this (stop_colors shader) (stop_count shader)
                   = Ret xformed).
  { unfold stop_count, stop_colors in *.
    rewrite <- (length_map fst (stops (gradientDesc shader))).
    now apply apply_SkColors_all. }
  split; [exact Hbatch|]. split.
  - apply Forall2_map_r. intros c _. now rewrite apply_SkColor_eq, Hf.
  - rewrite apply_SkShader_gradient, gradient_branch_eq, Hbatch by assumption.
    destruct (gradientType shader); exact I || reflexivity.
Qed.

(** ** Paints *)

(** C6.  A returned paint keeps the colour of the source when its three
    colour channels are zero, whatever the alpha; otherwise its colour is the
    scalar conversion of the source's. *)
Theorem paint_color_kept_if_black_else_converted (this : SkColorSpaceXformer)
    (src dst : SkPaint) :
  apply_SkPaint this src = Ret dst ->
  let c := getColor src in
  (SkColorGetR c = 0 /\ SkColorGetG c = 0 /\ SkColorGetB c = 0 ->
   getColor dst = c) /\
  (~ (SkColorGetR c = 0 /\ SkColorGetG c = 0 /\ SkColorGetB c = 0) ->
   apply_SkColor this c = Ret (getColor dst)).
Proof.
  intros H c. apply apply_SkPaint_inv in H. destruct H as (Hcol & _).
  fold c in Hcol. rewrite <- rgb_bits_zero_iff.
  destruct (Z.eqb_spec (rgb_bits c) 0) as [Hz|Hnz]; split; intros Hb;
    easy.
Qed.

(** C10.  Only the paint's own colour has the fast path for black.  The
    colour of a mode colour filter goes through the scalar conversion, and so
    does the constant colour of a shader and every stop of a gradient,
    whatever their colour channels are: the rebuilt filter, colour shader
    and gradient are made from the converted colours. *)
Theorem black_fast_path_only_for_paint_color (this : SkColorSpaceXformer) :
  (forall src dst cf color mode,
     apply_SkPaint this src = Ret dst ->
     getColorFilter src = Some cf ->
     asColorMode cf = Some (color, mode) ->
     exists c, apply_SkColor this color = Ret c /\
               getColorFilter dst = MakeModeFilter c mode) /\
  (forall shader color,
     constant_color shader = Some color ->
     apply_SkShader this shader =
     (do c <- apply_SkColor this color;
      do colorShader <- deref (MakeColorShader c);
      Ret (makeWithLocalMatrix colorShader (getLocalMatrix shader)))) /\
  (forall shader,
     constant_color shader = None ->
     isAImage shader = None ->
     asACompose shader = None ->
     fst (asAGradient shader GradientInfo_zero) <> kNone_GradientType ->
     apply_SkShader this shader =
     (do xformed <- apply_SkColors this (stop_colors shader) (stop_count shader);
      gradient_switch shader (gradientType shader) (reported shader) xformed) /\
     forall xformed,
       apply_SkColors this (stop_colors shader) (stop_count shader) = Ret xformed ->
       Forall2 (fun c x => apply_SkColor this c = Ret x) (stop_colors shader) xformed) /\
  (forall shader f,
     constant_color shader = None ->
     isAImage shader = None ->
     asACompose shader = None ->
     bound_pixel this = Some f ->
     let d := gradientDesc shader in
     let xformed := map f (stop_colors shader) in
     match gradientType shader with
     | kLinear_GradientType =>
         apply_SkShader this shader =
         Ret (MakeLinear (points d) xformed (Some (stop_offsets shader))
                (stop_count shader) (tileMode d) (gradientFlags d)
                (getLocalMatrix shader))
     | kRadial_GradientType =>
         apply_SkShader this shader =
         Ret (MakeRadial (fst (points d)) (fst (radii d)) xformed
                (Some (stop_offsets shader)) (stop_count shader) (tileMode d)
                (gradientFlags d) (getLocalMatrix shader))
     | kSweep_GradientType =>
         apply_SkShader this shader =
         Ret (MakeSweep (fX (fst (points d))) (fY (fst (points d))) xformed
                (Some (stop_offsets shader)) (stop_count shader)
                (gradientFlags d) (getLocalMatrix shader))
     | kConical_GradientType =>
         apply_SkShader this shader =
         Ret (MakeTwoPointConical (fst (points d)) (fst (radii d))
                (snd (points d)) (snd (radii d)) xformed
                (Some (stop_offsets shader)) (stop_count shader) (tileMode d)
                (gradientFlags d) (getLocalMatrix shader))
     | kNone_GradientType | kColor_GradientType => True
     end).
Proof.
  split; [|split; [|split]]; cycle 3.
  { intros shader f Hc Hi Ha Hf d xformed.
    assert (Hbatch : apply_SkColors this (stop_colors shader) (stop_count shader)
                     = Ret xformed).
    { unfold stop_count, stop_colors in *.
      rewrite <- (length_map fst (stops (gradientDesc shader))).
      now apply apply_SkColors_all. }
    rewrite apply_SkShader_gradient, gradient_branch_eq, Hbatch by assumption.
    destruct (gradientType shader); exact I || reflexivity. }
  - intros src dst cf color mode H Hcf Hm.
    apply apply_SkPaint_inv in H. destruct H as (_ & _ & Hf & _).
    now rewrite Hcf, Hm in Hf.
  - intros shader color Hc. now rewrite apply_SkShader_eq, Hc.
  - intros shader Hc Hi Ha Hg. rewrite asAGradient_kind in Hg. split.
    + rewrite apply_SkShader_gradient, gradient_branch_eq by assumption.
      now destruct (gradientType shader).
    + intros xformed. rewrite apply_SkColors_eq. unfold stop_count, stop_colors.
      rewrite <- (length_map fst (stops (gradientDesc shader))).
      rewrite Nat2Z.id, firstn_all.
      destruct (bound_pixel this) as [f|] eqn:Hf; [|discriminate].
      intros H. inversion H; subst.
      apply Forall2_map_r. intros c _. now rewrite apply_SkColor_eq, Hf.
Qed.

End Facts.

(** * The properties at work on the small instance *)

Section Instances.

Import Demo.

(** ** Construction *)

Lemma Make_fails_iff_no_transform_witness :
  Make (Some (-1)) = None /\
  Make (Some 5) = Some xformer /\
  fDst xformer = Some 5.
Proof.
  assert (H : Make (Some 5) = Some xformer) by reflexivity.
  split; [|split; [exact H|]].
  - apply (proj1 (Make_fails_iff_no_transform (T:=types) (Some (-1)))). reflexivity.
  - apply (proj2 (Make_fails_iff_no_transform (T:=types) (Some 5)) xformer H).
Defined.

(** ** Colours *)

Lemma batch_conversion_is_elementwise_witness :
  apply_SkColors xformer [red; green; blue; black] 3
    = Ret [0xffff0005; 0xff00ff05; 0xff000104] /\
  apply_SkColors xformer [red; green; blue; black] 3
    = traverse (apply_SkColor xformer) [red; green; blue].
Proof.
  split; [reflexivity|].
  apply (batch_conversion_is_elementwise xformer [red; green; blue; black] 3).
  discriminate.
Defined.

(** ** Images *)

(** Image 7 is already in the destination space and the image operation
    hands it back: the image overload returns the object it was given. *)
Lemma apply_SkImage_returns_its_argument :
  apply_SkImage xformer 7 = Some 7.
Proof. reflexivity. Qed.

Lemma apply_SkBitmap_never_returns_wrapper_witness :
  SkMakeImageFromRasterBitmap 8 kNever_SkCopyPixelsMode = Some 8 /\
  apply_SkBitmap xformer 8 = Ret (Some 1008) /\
  1008 <> 8 /\
  apply_SkBitmap xformer 7 = AssertFailed.
Proof.
  assert (H8 : SkMakeImageFromRasterBitmap 8 kNever_SkCopyPixelsMode = Some 8)
    by reflexivity.
  assert (H7 : SkMakeImageFromRasterBitmap 7 kNever_SkCopyPixelsMode = Some 7)
    by reflexivity.
  split; [exact H8|]. split; [reflexivity|]. split.
  - apply (proj1 (apply_SkBitmap_never_returns_wrapper xformer 8 8 H8) 1008).
    reflexivity.
  - apply (proj2 (apply_SkBitmap_never_returns_wrapper xformer 7 7 H7)).
    reflexivity.
Defined.

(** ** Shaders *)

Lemma unrecognized_shader_returned_itself_witness :
  apply_SkShader xformer (opaqueShader 3) = Ret (Some (opaqueShader 3)).
Proof.
  apply unrecognized_shader_returned_itself; reflexivity.
Defined.

(** The image of [unreadable] cannot be retargeted; converting the shader
    dereferences the null image. *)
Lemma image_shader_null_image_dereferenced_witness :
  apply_SkImage xformer 0 = None /\
  apply_SkShader xformer unreadable = NullDeref.
Proof.
  split; [reflexivity|].
  apply (image_shader_null_image_dereferenced xformer unreadable
           0 9 (kClamp_TileMode, kRepeat_TileMode)); reflexivity.
Defined.

(** The second child converts to no shader, and the composite converts to
    itself, not to "no shader". *)
Lemma composite_with_failed_child_is_returned :
  apply_SkShader xformer (colorShader red) = Ret (Some (colorShader 0xffff0005)) /\
  apply_SkShader xformer empty_linear = Ret None /\
  apply_SkShader xformer half_convertible = Ret (Some half_convertible) /\
  apply_SkShader xformer half_convertible <> Ret None.
Proof.
  repeat split; try reflexivity. discriminate.
Qed.

Lemma compose_failed_child_falls_through_witness :
  apply_SkShader xformer half_convertible = gradient_branch xformer half_convertible /\
  apply_SkShader xformer half_convertible = Ret (Some half_convertible).
Proof.
  assert (HA : apply_SkShader xformer (colorShader red)
               = Ret (Some (colorShader 0xffff0005))) by reflexivity.
  assert (HB : apply_SkShader xformer empty_linear = Ret None) by reflexivity.
  destruct (compose_failed_child_falls_through xformer half_convertible
              (@mkComposeRec types SkShader (colorShader red) empty_linear 3)
              (Some (colorShader 0xffff0005)) None
              eq_refl eq_refl eq_refl HA HB (or_intror eq_refl))
    as [H1 H2].
  split; [exact H1 | exact (H2 eq_refl)].
Defined.



Lemma gradient_rebuilt_with_converted_stops_witness :
  apply_SkShader xformer four_stop_linear =
  Ret (MakeLinear (mkSkPoint 1 2, mkSkPoint 3 4)
         [0xffff0005; 0xff00ff05; 0xff00ff05; 0xff000104]
         (Some [0; 3; 3; 10]) 4 kRepeat_TileMode 1 8).
Proof.
  exact (proj2 (proj2 (gradient_rebuilt_with_converted_stops xformer four_stop_linear
                         (toy_pixel 5) eq_refl eq_refl eq_refl eq_refl))).
Defined.

(** They convert to the same shader, so the tile mode of the original cannot
    be read off the converted one, whatever way of reading is chosen. *)
Lemma sweep_tile_mode_not_carried_over :
  apply_SkShader xformer (sweep kRepeat_TileMode)
    = apply_SkShader xformer (sweep kClamp_TileMode) /\
  ~ exists tileOf : sk_sp SkShader -> TileMode,
      tile_mode_carried_over xformer tileOf (sweep kRepeat_TileMode) /\
      tile_mode_carried_over xformer tileOf (sweep kClamp_TileMode).
Proof.
  split; [reflexivity|].
  intros [tileOf [Hrepeat Hclamp]].
  specialize (Hrepeat _ eq_refl). specialize (Hclamp _ eq_refl).
  cbn in Hrepeat, Hclamp. congruence.
Qed.

(** ** Paints *)

Lemma paint_color_kept_if_black_else_converted_witness :
  apply_SkPaint xformer (paint black None None) = Ret (paint black None None) /\
  getColor (paint black None None) = black /\
  apply_SkPaint xformer (paint red None None) = Ret (paint 0xffff0005 None None) /\
  apply_SkColor xformer red = Ret 0xffff0005.
Proof.
  assert (Hblack : apply_SkPaint xformer (paint black None None)
                   = Ret (paint black None None)) by reflexivity.
  assert (Hred : apply_SkPaint xformer (paint red None None)
                 = Ret (paint 0xffff0005 None None)) by reflexivity.
  split; [exact Hblack|]. split.
  - apply (proj1 (paint_color_kept_if_black_else_converted xformer _ _ Hblack)).
    repeat split.
  - split; [exact Hred|].
    apply (proj2 (paint_color_kept_if_black_else_converted xformer _ _ Hred)).
    intros (H & _). discriminate H.
Defined.

(** Black as the paint's colour is kept; black in the paint's mode filter,
    as the colour of a colour shader and as a gradient stop is converted. *)
Lemma black_fast_path_only_for_paint_color_witness :
  apply_SkPaint xformer (paint black None (Some (black, 3)))
    = Ret (paint black None (Some (0xff000005, 3))) /\
  (exists c, apply_SkColor xformer black = Ret c /\
             getColorFilter (paint black None (Some (0xff000005, 3)))
               = MakeModeFilter c 3) /\
  apply_SkShader xformer (colorShader black) = Ret (Some (colorShader 0xff000005)) /\
  apply_SkShader xformer black_to_red =
    Ret (MakeLinear (mkSkPoint 1 2, mkSkPoint 3 4) [0xff000005; 0xffff0005]
           (Some [0; 10]) 2 kMirror_TileMode 1 8).
Proof.
  assert (H : apply_SkPaint xformer (paint black None (Some (black, 3)))
              = Ret (paint black None (Some (0xff000005, 3)))) by reflexivity.
  destruct (black_fast_path_only_for_paint_color xformer)
    as (Hfilter & Hcolor & _ & Hgradient).
  split; [exact H|]. split; [|split].
  - apply (Hfilter _ _ (Some (black, 3)) black 3 H); reflexivity.
  - rewrite (Hcolor (colorShader black) black eq_refl). reflexivity.
  - exact (Hgradient black_to_red (toy_pixel 5) eq_refl eq_refl eq_refl eq_refl).
Defined.

End Instances.

(** * Further properties *)

Section Further.

Context {T : SkiaTypes} {E : Collaborators}.

(** ** Images and construction *)

(** X1.  The bitmap overload gives no image in two cases only: no wrapper could be
    made around the bitmap, or the wrapper could not be retargeted. *)
Theorem apply_SkBitmap_none_iff (this : SkColorSpaceXformer) (src : SkBitmap) :
  apply_SkBitmap this src = Ret None <->
  SkMakeImageFromRasterBitmap src kNever_SkCopyPixelsMode = None \/
  exists image,
    SkMakeImageFromRasterBitmap src kNever_SkCopyPixelsMode = Some image /\
    apply_SkImage this image = None.
Proof.
  unfold apply_SkBitmap, apply_SkImage.
  destruct (SkMakeImageFromRasterBitmap src kNever_SkCopyPixelsMode) as [image|].
  - destruct (SkImage_makeColorSpace image (fDst this)) as [x|] eqn:Hx; cbn.
    + split.
      * destruct (SkImage_eq_dec x image); cbn; discriminate.
      * intros [H|[i [Hi H]]]; [discriminate|].
        inversion Hi; subst. congruence.
    + split; [|reflexivity]. intros _. right. exists image. now split.
  - split; [now left | reflexivity].
Qed.

(** X2.  An image the bitmap overload returns is the one the image overload
    returns for the wrapper; and the overload never dereferences a null
    image, the wrapper being tested before it is used. *)
Theorem apply_SkBitmap_agrees_with_apply_SkImage (this : SkColorSpaceXformer)
    (src : SkBitmap) :
  (forall xformed, apply_SkBitmap this src = Ret (Some xformed) ->
     exists image,
       SkMakeImageFromRasterBitmap src kNever_SkCopyPixelsMode = Some image /\
       apply_SkImage this image = Some xformed) /\
  apply_SkBitmap this src <> NullDeref.
Proof.
  unfold apply_SkBitmap, apply_SkImage.
  destruct (SkMakeImageFromRasterBitmap src kNever_SkCopyPixelsMode) as [image|].
  - destruct (SkImage_makeColorSpace image (fDst this)) as [x|] eqn:Hx; cbn.
    + destruct (SkImage_eq_dec x image); cbn; split; try discriminate.
      intros xformed H. inversion H; subst. exists image. now split.
    + split; discriminate.
  - split; discriminate.
Qed.

(** X3.  An xformer made for a destination retargets every image to that
    destination and converts colours with the transform built for it. *)
Theorem Make_binds_destination_and_transform (dst : sk_sp SkColorSpace)
    (this : SkColorSpaceXformer) :
  Make dst = Some this ->
  (forall src, apply_SkImage this src = SkImage_makeColorSpace src dst) /\
  exists fromSRGB,
    SkColorSpaceXform_New SkColorSpace_MakeSRGB dst kIgnore = Some fromSRGB /\
    forall srgb n,
      apply_SkColors this srgb n =
      SkAssertResult
        (SkColorSpaceXform_apply fromSRGB kBGRA_8888_ColorFormat
           kBGRA_8888_ColorFormat srgb n kUnpremul_SkAlphaType).
Proof.
  unfold Make.
  destruct (SkColorSpaceXform_New SkColorSpace_MakeSRGB dst kIgnore)
    as [fromSRGB|]; [|discriminate].
  intros H. inversion H; subst; clear H. split; [reflexivity|].
  exists fromSRGB. split; reflexivity.
Qed.

(** ** Composites *)

(** X5.  A conversion of a child that halts, halts the conversion of the
    composite in the same way; the first child is converted first. *)
Theorem composite_halts_as_child (this : SkColorSpaceXformer)
    (shader : SkShader) (compose : ComposeRec SkShader)
    (halted : outcome (sk_sp SkShader)) :
  constant_color shader = None ->
  isAImage shader = None ->
  asACompose shader = Some compose ->
  (forall r, halted <> Ret r) ->
  apply_SkShader this (fShaderA compose) = halted \/
  (exists A, apply_SkShader this (fShaderA compose) = Ret A /\
             apply_SkShader this (fShaderB compose) = halted) ->
  apply_SkShader this shader = halted.
Proof.
  intros Hc Hi Ha Hh Hchild.
  rewrite apply_SkShader_eq, Hc, Hi, Ha.
  destruct Hchild as [HA | [A [HA HB]]].
  - rewrite HA. destruct halted as [r| |]; [now elim (Hh r) | reflexivity..].
  - rewrite HA, HB. cbn.
    destruct halted as [r| |]; [now elim (Hh r) | reflexivity..].
Qed.

(** ** Shader trees *)

(** Induction on a shader tree: a property holds of every shader when it
    holds of a shader as soon as it holds of the children it reports. *)
Lemma SkShader_tree_ind (P : SkShader -> Prop) :
  (forall shader,
     (forall compose, asACompose shader = Some compose ->
                      P (fShaderA compose) /\ P (fShaderB compose)) ->
     P shader) ->
  forall shader, P shader.
Proof.
  intros H. fix IH 1. intros shader. apply H.
  destruct shader as [ic lc im co gt gd lm]. cbn.
  destruct co as [[a b m]|]; intros compose Hc; [|discriminate].
  injection Hc as <-. cbn. split; apply IH.
Qed.

Lemma all_nodes_eq (P : SkShader -> bool) (shader : SkShader) :
  all_nodes P shader =
  P shader &&
  match asACompose shader with
  | Some compose =>
      all_nodes P (fShaderA compose) && all_nodes P (fShaderB compose)
  | None => true
  end.
Proof.
  destruct shader; reflexivity.
Qed.

Lemma all_nodes_inv (P : SkShader -> bool) (shader : SkShader) :
  all_nodes P shader = true ->
  P shader = true /\
  forall compose, asACompose shader = Some compose ->
    all_nodes P (fShaderA compose) = true /\
    all_nodes P (fShaderB compose) = true.
Proof.
  rewrite all_nodes_eq. intros H. apply andb_true_iff in H. destruct H as [HP Hc].
  split; [exact HP|]. intros compose Heq. rewrite Heq in Hc.
  now apply andb_true_iff in Hc.
Qed.

(** With a usable transform the gradient branch returns, but for a node of
    the colour kind that has no constant colour. *)
Lemma gradient_branch_returns (this : SkColorSpaceXformer) (f : SkColor -> SkColor)
    (shader : SkShader) :
  bound_pixel this = Some f ->
  constant_color shader = None ->
  color_kind_is_constant shader = true ->
  exists r, gradient_branch this shader = Ret r.
Proof.
  intros Hf Hc Hk. rewrite gradient_branch_eq, apply_SkColors_eq, Hf.
  unfold color_kind_is_constant in Hk. rewrite Hc in Hk.
  destruct (gradientType shader); cbn; try discriminate; eauto.
Qed.

(** X6.  With a usable transform, and when throughout a shader tree only
    constant-colour shaders report the colour gradient kind, the conversion
    of the tree trips no assertion. *)
Theorem shader_tree_trips_no_assertion (this : SkColorSpaceXformer)
    (f : SkColor -> SkColor) (shader : SkShader) :
  bound_pixel this = Some f ->
  all_nodes color_kind_is_constant shader = true ->
  apply_SkShader this shader <> AssertFailed.
Proof.
  intros Hf. induction shader as [shader IH] using SkShader_tree_ind.
  intros Hall. apply all_nodes_inv in Hall. destruct Hall as [Hk Hkids].
  rewrite apply_SkShader_eq.
  destruct (constant_color shader) as [color|] eqn:Hc.
  { unfold color_branch. rewrite apply_SkColor_eq, Hf. cbn.
    destruct (MakeColorShader (f color)); discriminate. }
  destruct (isAImage shader) as [[[img local] xy]|].
  { unfold image_branch. destruct (apply_SkImage this img); discriminate. }
  assert (Hg : gradient_branch this shader <> AssertFailed).
  { destruct (gradient_branch_returns this f shader Hf Hc Hk) as [r ->].
    discriminate. }
  destruct (asACompose shader) as [compose|]; [|exact Hg].
  destruct (IH compose eq_refl) as [IHA IHB].
  destruct (Hkids compose eq_refl) as [HA HB].
  specialize (IHA HA). specialize (IHB HB).
  destruct (apply_SkShader this (fShaderA compose)) as [A| |];
    [|contradiction|discriminate]. cbn.
  destruct (apply_SkShader this (fShaderB compose)) as [B| |];
    [|contradiction|discriminate]. cbn.
  destruct A as [a|], B as [b|]; try exact Hg.
  destruct (MakeComposeShader (Some a) (Some b) (fBlendMode compose)); discriminate.
Qed.

(** X7.  The conversion of a shader tree returns when the transform is usable,
    every image in the tree can be retargeted, only constant-colour shaders
    report the colour kind, and the colour and composite builders give a
    shader. *)
Theorem shader_tree_conversion_returns (this : SkColorSpaceXformer)
    (f : SkColor -> SkColor) (shader : SkShader) :
  bound_pixel this = Some f ->
  (forall c, MakeColorShader c <> None) ->
  (forall a b mode, MakeComposeShader (Some a) (Some b) mode <> None) ->
  all_nodes (fun s => color_kind_is_constant s && image_converts this s) shader = true ->
  exists r, apply_SkShader this shader = Ret r.
Proof.
  intros Hf Hcolor Hcompose.
  induction shader as [shader IH] using SkShader_tree_ind.
  intros Hall. apply all_nodes_inv in Hall. destruct Hall as [Hnode Hkids].
  apply andb_true_iff in Hnode. destruct Hnode as [Hk Himg].
  rewrite apply_SkShader_eq.
  destruct (constant_color shader) as [color|] eqn:Hc.
  { unfold color_branch. rewrite apply_SkColor_eq, Hf. cbn.
    specialize (Hcolor (f color)).
    destruct (MakeColorShader (f color)); [cbn; eauto | contradiction]. }
  unfold image_converts in Himg.
  destruct (isAImage shader) as [[[img local] xy]|].
  { unfold image_branch.
    destruct (apply_SkImage this img); [cbn; eauto | discriminate]. }
  pose proof (gradient_branch_returns this f shader Hf Hc Hk) as Hg.
  destruct (asACompose shader) as [compose|]; [|exact Hg].
  destruct (IH compose eq_refl) as [IHA IHB].
  destruct (Hkids compose eq_refl) as [HA HB].
  destruct (IHA HA) as [A ->]. destruct (IHB HB) as [B ->]. cbn.
  destruct A as [a|], B as [b|]; try exact Hg.
  specialize (Hcompose a b (fBlendMode compose)).
  destruct (MakeComposeShader (Some a) (Some b) (fBlendMode compose));
    [cbn; eauto | contradiction].
Qed.

(** X8.  A transform that rejects the pixel format halts every conversion that
    needs a colour: a constant-colour shader, a gradient, a paint whose
    colour is not black. *)
Theorem unusable_transform_halts_colour_conversions (this : SkColorSpaceXformer) :
  bound_pixel this = None ->
  (forall shader color,
     constant_color shader = Some color ->
     apply_SkShader this shader = AssertFailed) /\
  (forall shader,
     constant_color shader = None ->
     isAImage shader = None ->
     asACompose shader = None ->
     gradientType shader <> kNone_GradientType ->
     apply_SkShader this shader = AssertFailed) /\
  (forall src,
     rgb_bits (getColor src) <> 0 ->
     apply_SkPaint this src = AssertFailed).
Proof.
  intros Hf. split; [|split].
  - intros shader color Hc. rewrite apply_SkShader_eq, Hc.
    unfold color_branch. now rewrite apply_SkColor_eq, Hf.
  - intros shader Hc Hi Ha Hg.
    rewrite apply_SkShader_gradient, gradient_branch_eq, apply_SkColors_eq, Hf
      by assumption.
    now destruct (gradientType shader).
  - intros src Hrgb. unfold apply_SkPaint.
    apply Z.eqb_neq in Hrgb. now rewrite Hrgb, apply_SkColor_eq, Hf.
Qed.

(** ** Paints *)

(** X10.  The fast path for black cannot be told from a conversion when the
    transform maps the paint's black onto itself: the returned paint then
    always carries the converted colour. *)
Theorem paint_fast_path_is_sound (this : SkColorSpaceXformer)
    (f : SkColor -> SkColor) (src dst : SkPaint) :
  bound_pixel this = Some f ->
  (rgb_bits (getColor src) = 0 -> f (getColor src) = getColor src) ->
  apply_SkPaint this src = Ret dst ->
  getColor dst = f (getColor src).
Proof.
  intros Hf Hblack H. apply apply_SkPaint_inv in H. destruct H as (Hcol & _).
  destruct (Z.eqb_spec (rgb_bits (getColor src)) 0) as [Hz|Hnz].
  - now rewrite Hcol, Hblack.
  - rewrite apply_SkColor_eq, Hf in Hcol. now inversion Hcol.
Qed.

(** X11.  What the conversion of a paint leaves alone: the fields it does not
    read, an absent shader, colour filter or draw looper, and a colour
    filter that is no mode filter, which stays the same object. *)
Theorem paint_untouched_parts (this : SkColorSpaceXformer) (src dst : SkPaint) :
  apply_SkPaint this src = Ret dst ->
  paintRest dst = paintRest src /\
  (getShader src = None -> getShader dst = None) /\
  (getColorFilter src = None -> getColorFilter dst = None) /\
  (forall cf, getColorFilter src = Some cf -> asColorMode cf = None ->
              getColorFilter dst = Some cf) /\
  (getDrawLooper src = None -> getDrawLooper dst = None).
Proof.
  intros H. apply apply_SkPaint_inv in H.
  destruct H as (_ & Hs & Hf & Hl & Hr).
  split; [exact Hr|]. split; [|split; [|split]].
  - intros Hn. now rewrite Hn in Hs.
  - intros Hn. now rewrite Hn in Hf.
  - intros cf Hcf Hm. now rewrite Hcf, Hm in Hf.
  - intros Hn. now rewrite Hn in Hl.
Qed.

(** X12.  The shader of the returned paint is whatever the shader conversion
    returned, so a shader that converts to none is dropped from the paint;
    the draw looper is the one the source's looper returned for this
    xformer. *)
Theorem paint_shader_and_looper_replaced (this : SkColorSpaceXformer)
    (src dst : SkPaint) :
  apply_SkPaint this src = Ret dst ->
  (forall shader, getShader src = Some shader ->
     apply_SkShader this shader = Ret (getShader dst)) /\
  (forall shader, getShader src = Some shader ->
     apply_SkShader this shader = Ret None -> getShader dst = None) /\
  (forall looper, getDrawLooper src = Some looper ->
     SkDrawLooper_makeColorSpace looper this = Ret (getDrawLooper dst)).
Proof.
  intros H. apply apply_SkPaint_inv in H.
  destruct H as (_ & Hs & _ & Hl & _). split; [|split].
  - intros shader Hsh. now rewrite Hsh in Hs.
  - intros shader Hsh Hnone. rewrite Hsh, Hnone in Hs. now inversion Hs.
  - intros looper Hlp. now rewrite Hlp in Hl.
Qed.

(** X13.  A black paint with no shader, no mode colour filter and no draw looper
    is returned as it is, whether the transform is usable or not. *)
Theorem paint_with_nothing_to_convert (this : SkColorSpaceXformer) (src : SkPaint) :
  rgb_bits (getColor src) = 0 ->
  getShader src = None ->
  (getColorFilter src = None \/
   exists cf, getColorFilter src = Some cf /\ asColorMode cf = None) ->
  getDrawLooper src = None ->
  apply_SkPaint this src = Ret src.
Proof.
  intros Hrgb Hs Hf Hl. unfold apply_SkPaint.
  apply Z.eqb_eq in Hrgb. rewrite Hrgb, Hs, Hl.
  destruct Hf as [Hf | [cf [Hf Hm]]]; rewrite Hf; [|rewrite Hm];
    destruct src; reflexivity.
Qed.

(** X14.  A shader conversion that halts, halts the conversion of the paint that
    carries the shader in the same way, once the paint's colour is done. *)
Theorem paint_halts_as_shader (this : SkColorSpaceXformer) (src : SkPaint)
    (shader : SkShader) :
  (rgb_bits (getColor src) = 0 \/
   exists c, apply_SkColor this (getColor src) = Ret c) ->
  getShader src = Some shader ->
  (apply_SkShader this shader = NullDeref -> apply_SkPaint this src = NullDeref) /\
  (apply_SkShader this shader = AssertFailed -> apply_SkPaint this src = AssertFailed).
Proof.
  intros Hcol Hs. unfold apply_SkPaint. rewrite Hs.
  split; intros Hhalt; rewrite Hhalt;
    (destruct Hcol as [Hz | [c Hc]];
       [ apply Z.eqb_eq in Hz; now rewrite Hz
       | rewrite Hc; now destruct (rgb_bits (getColor src) =? 0) ]).
Qed.

(** X15.  The conversion of a paint returns exactly when each call it makes
    does: the conversion of its colour unless black, of its shader if any, of
    the colour of its mode filter if any, and the retargeting its draw
    looper, if any, does of itself with the xformer. *)
Theorem apply_SkPaint_returns_iff (this : SkColorSpaceXformer) (src : SkPaint) :
  (exists dst, apply_SkPaint this src = Ret dst) <->
  (rgb_bits (getColor src) <> 0 ->
   exists c, apply_SkColor this (getColor src) = Ret c) /\
  (forall shader, getShader src = Some shader ->
     exists r, apply_SkShader this shader = Ret r) /\
  (forall cf color mode,
     getColorFilter src = Some cf -> asColorMode cf = Some (color, mode) ->
     exists c, apply_SkColor this color = Ret c) /\
  (forall looper, getDrawLooper src = Some looper ->
     exists l, SkDrawLooper_makeColorSpace looper this = Ret l).
Proof.
  split.
  - intros [dst H]. apply apply_SkPaint_inv in H.
    destruct H as (Hcol & Hs & Hf & Hl & _). split; [|split; [|split]].
    + intros Hnz. apply Z.eqb_neq in Hnz. rewrite Hnz in Hcol. eauto.
    + intros shader Hsh. rewrite Hsh in Hs. eauto.
    + intros cf color mode Hcf Hm. rewrite Hcf, Hm in Hf.
      destruct Hf as [c [Hc _]]. eauto.
    + intros looper Hlp. rewrite Hlp in Hl. eauto.
  - intros (Hcol & Hs & Hf & Hl). unfold apply_SkPaint.
    destruct (Z.eqb_spec (rgb_bits (getColor src)) 0) as [Hz|Hnz];
      [| destruct (Hcol Hnz) as [c ->] ]; cbn;
      (destruct (getShader src) as [shader|];
         [ destruct (Hs shader eq_refl) as [r ->] |]); cbn;
      (destruct (getColorFilter src) as [cf|];
         [ destruct (asColorMode cf) as [[color mode]|] eqn:Hm;
           [ destruct (Hf cf color mode eq_refl Hm) as [k ->] |] |]); cbn;
      (destruct (getDrawLooper src) as [looper|];
         [ destruct (Hl looper eq_refl) as [l ->] |]); cbn; eauto.
Qed.

End Further.

(** * The further properties on the small instance *)

Section FurtherInstances.

Import Demo.

Lemma apply_SkBitmap_none_iff_witness :
  apply_SkBitmap xformer (-1) = Ret None /\
  apply_SkBitmap xformer 0 = Ret None.
Proof.
  split.
  - apply (proj2 (apply_SkBitmap_none_iff xformer (-1))). left. reflexivity.
  - apply (proj2 (apply_SkBitmap_none_iff xformer 0)). right.
    exists 0. split; reflexivity.
Defined.

Lemma apply_SkBitmap_agrees_with_apply_SkImage_witness :
  exists image,
    SkMakeImageFromRasterBitmap 8 kNever_SkCopyPixelsMode = Some image /\
    apply_SkImage xformer image = Some 1008.
Proof.
  apply (proj1 (apply_SkBitmap_agrees_with_apply_SkImage xformer 8) 1008).
  reflexivity.
Defined.

Lemma Make_binds_destination_and_transform_witness :
  Make (Some 5) = Some xformer /\
  apply_SkImage xformer 3 = SkImage_makeColorSpace 3 (Some 5).
Proof.
  assert (H : Make (Some 5) = Some xformer) by reflexivity.
  split; [exact H|].
  exact (proj1 (Make_binds_destination_and_transform (T:=types) (Some 5) xformer H) 3).
Defined.

Lemma compose_rebuilt_witness :
  apply_SkShader xformer two_colors =
  Ret (Some (composeShader (colorShader 0xffff0005) (colorShader 0xff000104) 3 4)).
Proof.
  assert (HA : apply_SkShader xformer (colorShader red)
               = Ret (Some (colorShader 0xffff0005))) by reflexivity.
  assert (HB : apply_SkShader xformer (colorShader blue)
               = Ret (Some (colorShader 0xff000104))) by reflexivity.
  rewrite (compose_rebuilt xformer two_colors
             (@mkComposeRec types SkShader (colorShader red) (colorShader blue) 3)
             (colorShader 0xffff0005) (colorShader 0xff000104)
             eq_refl eq_refl eq_refl HA HB).
  reflexivity.
Defined.

Lemma composite_halts_as_child_witness :
  apply_SkShader xformer unreadable = NullDeref /\
  apply_SkShader xformer with_unreadable = NullDeref.
Proof.
  assert (HA : apply_SkShader xformer (colorShader red)
               = Ret (Some (colorShader 0xffff0005))) by reflexivity.
  assert (HB : apply_SkShader xformer unreadable = NullDeref) by reflexivity.
  split; [exact HB|].
  apply (composite_halts_as_child xformer with_unreadable
           (@mkComposeRec types SkShader (colorShader red) unreadable 3) NullDeref
           eq_refl eq_refl eq_refl).
  - discriminate.
  - right. exists (Some (colorShader 0xffff0005)). split; [exact HA | exact HB].
Defined.

Lemma shader_tree_trips_no_assertion_witness :
  apply_SkShader xformer nested <> AssertFailed.
Proof.
  apply (shader_tree_trips_no_assertion xformer (toy_pixel 5) nested); reflexivity.
Defined.

Lemma shader_tree_conversion_returns_witness :
  exists r, apply_SkShader xformer nested = Ret r.
Proof.
  apply (shader_tree_conversion_returns xformer (toy_pixel 5) nested).
  - reflexivity.
  - intros c. discriminate.
  - intros a b mode. discriminate.
  - reflexivity.
Defined.

Lemma unusable_transform_halts_colour_conversions_witness :
  apply_SkShader broken_xformer (colorShader red) = AssertFailed /\
  apply_SkShader broken_xformer four_stop_linear = AssertFailed /\
  apply_SkPaint broken_xformer (paint red None None) = AssertFailed.
Proof.
  destruct (unusable_transform_halts_colour_conversions broken_xformer eq_refl)
    as (Hc & Hg & Hp).
  split; [|split].
  - apply (Hc (colorShader red) red). reflexivity.
  - apply (Hg four_stop_linear); try reflexivity. discriminate.
  - apply (Hp (paint red None None)). discriminate.
Defined.

Lemma paint_fast_path_is_sound_witness :
  apply_SkPaint dim_xformer bare_paint = Ret bare_paint /\
  getColor bare_paint = dim_pixel black.
Proof.
  assert (H : apply_SkPaint dim_xformer bare_paint = Ret bare_paint) by reflexivity.
  split; [exact H|].
  apply (paint_fast_path_is_sound dim_xformer dim_pixel bare_paint bare_paint);
    [reflexivity | intros _; reflexivity | exact H].
Defined.

Lemma paint_untouched_parts_witness :
  apply_SkPaint xformer (paint red None None) = Ret (paint 0xffff0005 None None) /\
  getColorFilter (paint 0xffff0005 None None) = Some None /\
  getShader (paint 0xffff0005 None None) = None.
Proof.
  assert (H : apply_SkPaint xformer (paint red None None)
              = Ret (paint 0xffff0005 None None)) by reflexivity.
  destruct (paint_untouched_parts xformer _ _ H) as (_ & Hs & _ & Hf & _).
  split; [exact H|]. split.
  - apply (Hf None); reflexivity.
  - apply Hs. reflexivity.
Defined.

Lemma paint_shader_and_looper_replaced_witness :
  apply_SkPaint xformer (paint black (Some empty_linear) None)
    = Ret (paint black None None) /\
  getShader (paint black None None) = None /\
  apply_SkPaint xformer looping_paint = Ret looping_paint /\
  SkDrawLooper_makeColorSpace 11 xformer = Ret (getDrawLooper looping_paint).
Proof.
  assert (H1 : apply_SkPaint xformer (paint black (Some empty_linear) None)
               = Ret (paint black None None)) by reflexivity.
  assert (H2 : apply_SkPaint xformer looping_paint = Ret looping_paint)
    by reflexivity.
  split; [exact H1|]. split; [|split; [exact H2|]].
  - apply (proj1 (proj2 (paint_shader_and_looper_replaced xformer _ _ H1))
             empty_linear); reflexivity.
  - apply (proj2 (proj2 (paint_shader_and_looper_replaced xformer _ _ H2)) 11).
    reflexivity.
Defined.

Lemma paint_with_nothing_to_convert_witness :
  apply_SkPaint broken_xformer bare_paint = Ret bare_paint.
Proof.
  apply paint_with_nothing_to_convert; try reflexivity. left. reflexivity.
Defined.

Lemma paint_halts_as_shader_witness :
  apply_SkPaint xformer (paint red (Some unreadable) None) = NullDeref.
Proof.
  apply (proj1 (paint_halts_as_shader xformer (paint red (Some unreadable) None)
                  unreadable
                  (or_intror (ex_intro _ 0xffff0005 eq_refl)) eq_refl)).
  reflexivity.
Defined.

Lemma apply_SkPaint_returns_iff_witness :
  (exists dst, apply_SkPaint xformer full_paint = Ret dst) /\
  ~ (exists dst, apply_SkPaint xformer stuck_looper_paint = Ret dst).
Proof.
  split.
  - apply (proj2 (apply_SkPaint_returns_iff xformer full_paint)).
    split; [|split; [|split]].
    + intros _. exists 0xffff0005. reflexivity.
    + intros shader H. inversion H; subst. eexists. reflexivity.
    + intros cf color mode H Hm. inversion H; subst. inversion Hm; subst.
      exists 0xff000005. reflexivity.
    + intros looper H. inversion H; subst. eexists. reflexivity.
  - intros H. apply (proj1 (apply_SkPaint_returns_iff xformer stuck_looper_paint)) in H.
    destruct H as (_ & _ & _ & Hl).
    destruct (Hl 13 eq_refl) as [l Hhalt]. discriminate Hhalt.
Defined.

Lemma sweep_conversion_ignores_tile_mode_witness :
  apply_SkShader xformer (with_tileMode (sweep kClamp_TileMode) kMirror_TileMode)
    = apply_SkShader xformer (sweep kClamp_TileMode).
Proof.
  apply (sweep_conversion_ignores_tile_mode xformer (sweep kClamp_TileMode)
           kMirror_TileMode); reflexivity.
Defined.

End FurtherInstances.
